(** * LocalValueNumbering: the function pass of project2 and its plugin registration

    A shallow embedding of [project2/LocalValueNumbering.cpp].  The file has
    three parts:

    - [IR] and [PassManager]: the slice of the host compiler the pass is
      written against (functions, blocks, instructions, preserved-analysis
      sets, pass managers, the pass builder);
    - [LocalValueNumbering]: the translation unit itself ([visitor], [run],
      [isRequired], [getLocalValueNumberingPluginInfo],
      [llvmGetPassPluginInfo]);
    - the properties of the pass. *)

From Stdlib Require Import ZArith.
From stdpp Require Import base strings list gmap.

Local Open Scope string_scope.

(** ** The intermediate representation *)

Module IR.

(** Modelled from the spec: the host's value class is not part of the
    repository.  An operand reference is a constant or a reference to a
    result identity (an earlier instruction, an argument, or a value defined
    outside the block). *)
Inductive Value : Type :=
| Const (z : Z)
| Ref (id : string).

(** Modelled from the spec: the opcodes the properties of the pass mention
    (commutative and non-commutative arithmetic, bitwise operations, memory
    reads and writes). *)
Inductive Opcode : Type :=
| Add | Sub | Mul | And | Or | Xor | Load | Store.

(** Modelled from the spec: an instruction has an opcode, an ordered list of
    operand references and a result identity. *)
Record Instruction : Type := mkInstruction {
  result : string;
  opcode : Opcode;
  operands : list Value
}.

(** Modelled from the spec: a basic block is an ordered sequence of
    instructions. *)
Record BasicBlock : Type := mkBasicBlock {
  label : string;
  insts : list Instruction
}.

(** Modelled from the spec: a function is its blocks, in order; [hasOptNone]
    is the "do not optimize" marker. *)
Record Function : Type := mkFunction {
  fname : string;
  hasOptNone : bool;
  blocks : list BasicBlock
}.

#[global] Instance Value_eq_dec : EqDecision Value.
Proof. solve_decision. Defined.
#[global] Instance Opcode_eq_dec : EqDecision Opcode.
Proof. solve_decision. Defined.
#[global] Instance Instruction_eq_dec : EqDecision Instruction.
Proof. solve_decision. Defined.
#[global] Instance BasicBlock_eq_dec : EqDecision BasicBlock.
Proof. solve_decision. Defined.
#[global] Instance Function_eq_dec : EqDecision Function.
Proof. solve_decision. Defined.

(** [t = a op b] *)
Definition binop (t : string) (op : Opcode) (a b : Value) : Instruction :=
  mkInstruction t op [a; b].

(** [t = load p] *)
Definition load (t : string) (p : Value) : Instruction :=
  mkInstruction t Load [p].

(** [store x, p]; a store has no result. *)
Definition store (x p : Value) : Instruction :=
  mkInstruction EmptyString Store [x; p].

(** Does instruction [i] read the result [t]? *)
Definition usesResult (t : string) (i : Instruction) : bool :=
  bool_decide (Ref t ∈ operands i).

(** Is [t] read somewhere in the sequence [l]? *)
Definition usedIn (t : string) (l : list Instruction) : bool :=
  existsb (usesResult t) l.

(** Is [t] the result of some instruction of [l]? *)
Definition definedIn (t : string) (l : list Instruction) : bool :=
  existsb (fun i => bool_decide (result i = t)) l.

(** *** Execution of a block

    Modelled from the spec: "the mapping from inputs to outputs" of a block.
    Values are 32-bit integers with wrap-around; the registers hold the
    results computed so far and the values that flow into the block; memory
    maps addresses to values.  Execution fails ([None]) on an operand that
    has no value and on an instruction of the wrong shape. *)

Definition wrap32 (z : Z) : Z := (z mod 2 ^ 32)%Z.

Record State : Type := mkState {
  regs : gmap string Z;
  mem : gmap Z Z
}.

Definition evalValue (st : State) (v : Value) : option Z :=
  match v with
  | Const z => Some (wrap32 z)
  | Ref id => regs st !! id
  end.

Definition evalBinop (op : Opcode) (x y : Z) : option Z :=
  match op with
  | Add => Some (wrap32 (x + y)%Z)
  | Sub => Some (wrap32 (x - y)%Z)
  | Mul => Some (wrap32 (x * y)%Z)
  | And => Some (Z.land x y)
  | Or => Some (Z.lor x y)
  | Xor => Some (Z.lxor x y)
  | Load | Store => None
  end.

Definition setReg (t : string) (z : Z) (st : State) : State :=
  mkState (<[t := z]> (regs st)) (mem st).

Definition execInstruction (st : State) (i : Instruction) : option State :=
  match opcode i, operands i with
  | Load, [p] =>
      a ← evalValue st p;
      Some (setReg (result i) (default 0%Z (mem st !! a)) st)
  | Store, [x; p] =>
      v ← evalValue st x;
      a ← evalValue st p;
      Some (mkState (regs st) (<[a := v]> (mem st)))
  | op, [x; y] =>
      vx ← evalValue st x;
      vy ← evalValue st y;
      r ← evalBinop op vx vy;
      Some (setReg (result i) r st)
  | _, _ => None
  end.

Fixpoint execInstructions (st : State) (l : list Instruction) : option State :=
  match l with
  | [] => Some st
  | i :: l' =>
      match execInstruction st i with
      | Some st' => execInstructions st' l'
      | None => None
      end
  end.

Definition execBlock (st : State) (B : BasicBlock) : option State :=
  execInstructions st (insts B).

End IR.

(** ** The pass-manager interface of the host *)

Module PassManager.
Import IR.

(** Modelled from the spec: the host's preserved-analysis set is not part of
    the repository.  A pass reports which categories of analysis results
    remain valid: none, all, or the CFG-level ones only.  The report is a set
    of keys; [AllAnalysesKey] stands for every analysis and [CFGAnalysesKey]
    for the analyses that depend on the shape of the control-flow graph
    only. *)
Inductive AnalysisKey : Type :=
| AllAnalysesKey
| CFGAnalysesKey
| AnalysisID (name : string).

#[global] Instance AnalysisKey_eq_dec : EqDecision AnalysisKey.
Proof. solve_decision. Defined.

#[global] Instance AnalysisKey_countable : Countable AnalysisKey.
Proof.
  refine (inj_countable'
    (fun k => match k with
              | AllAnalysesKey => inl true
              | CFGAnalysesKey => inl false
              | AnalysisID n => inr n
              end)
    (fun x => match x with
              | inl true => AllAnalysesKey
              | inl false => CFGAnalysesKey
              | inr n => AnalysisID n
              end) _).
  by intros [].
Defined.

Record PreservedAnalyses : Type := mkPreservedAnalyses {
  PreservedIDs : gset AnalysisKey
}.

Module PreservedAnalyses.
(** [PreservedAnalyses::none()] *)
Definition none : PreservedAnalyses := mkPreservedAnalyses ∅.
(** [PreservedAnalyses::all()] *)
Definition all : PreservedAnalyses := mkPreservedAnalyses {[ AllAnalysesKey ]}.
(** The report of a pass that keeps the control-flow graph as it is and
    nothing else. *)
Definition cfgOnly : PreservedAnalyses := mkPreservedAnalyses {[ CFGAnalysesKey ]}.
(** [PA.areAllPreserved()] *)
Definition areAllPreserved (PA : PreservedAnalyses) : bool :=
  bool_decide (AllAnalysesKey ∈ PreservedIDs PA).
End PreservedAnalyses.

(** Modelled from the spec: the analysis manager handed to [run]; the pass
    may query it for cached results. *)
Record FunctionAnalysisManager : Type := mkFunctionAnalysisManager {
  cached : list AnalysisKey
}.

(** Anything that can be run on a function and says whether the host may
    skip it is a function pass.  A pass receives the function by reference:
    it returns its report together with the function as it leaves it. *)
Class FunctionPass (P : Type) : Type := {
  pass_run : P -> Function -> FunctionAnalysisManager -> PreservedAnalyses * Function;
  pass_isRequired : bool
}.
#[global] Arguments pass_isRequired P {_}.

(** A pass as the pass manager stores it. *)
Record PassConcept : Type := mkPassConcept {
  concept_run : Function -> FunctionAnalysisManager -> PreservedAnalyses * Function;
  concept_isRequired : bool
}.

Definition PassModel {P : Type} `{FunctionPass P} (p : P) : PassConcept :=
  mkPassConcept (pass_run p) (pass_isRequired P).

Record FunctionPassManager : Type := mkFunctionPassManager {
  Passes : list PassConcept
}.

(** [FPM.addPass(p)] appends [p] to the pipeline. *)
Definition addPass {P : Type} `{FunctionPass P} (p : P)
    (FPM : FunctionPassManager) : FunctionPassManager :=
  mkFunctionPassManager (Passes FPM ++ [PassModel p]).

(** Modelled from the spec: a pass that is not required is skipped on a
    function marked "do not optimize"; a required pass is run on every
    function.  [None] is a skipped pass. *)
Definition shouldRun (P : PassConcept) (F : Function) : bool :=
  if concept_isRequired P then true else negb (hasOptNone F).

Definition invoke (P : PassConcept) (F : Function) (AM : FunctionAnalysisManager)
    : option (PreservedAnalyses * Function) :=
  if shouldRun P F then Some (concept_run P F AM) else None.

(** Modelled from the spec: an element of a textual pipeline description. *)
#[local] Unset Elimination Schemes.
Inductive PipelineElement : Type :=
| mkPipelineElement (Name : string) (InnerPipeline : list PipelineElement).
#[local] Set Elimination Schemes.

(** A pipeline-parsing callback is given the name of an element and the pass
    manager under construction; it answers whether it recognised the name. *)
Definition PipelineParsingCallback : Type :=
  string -> FunctionPassManager -> list PipelineElement -> bool * FunctionPassManager.

Record PassBuilder : Type := mkPassBuilder {
  FunctionPipelineParsingCallbacks : list PipelineParsingCallback
}.

(** [PB.registerPipelineParsingCallback(C)] *)
Definition registerPipelineParsingCallback (C : PipelineParsingCallback)
    (PB : PassBuilder) : PassBuilder :=
  mkPassBuilder (FunctionPipelineParsingCallbacks PB ++ [C]).

(** The record a plugin hands to the host. *)
Record PassPluginLibraryInfo : Type := mkPassPluginLibraryInfo {
  APIVersion : Z;
  PluginName : string;
  PluginVersion : string;
  RegisterPassBuilderCallbacks : PassBuilder -> PassBuilder
}.

End PassManager.

(** ** The translation unit *)

Module LocalValueNumbering.
Import IR PassManager.

(** [void visitor(Function &F)]: the body is empty, the function is left as
    it was passed in. *)
Definition visitor (F : Function) : Function := F.

(** [struct LocalValueNumbering] has no fields. *)
Inductive t : Type := LocalValueNumbering.

(** [PreservedAnalyses run(Function &F, FunctionAnalysisManager &)] *)
Definition run (F : Function) (_ : FunctionAnalysisManager)
    : PreservedAnalyses * Function :=
  let F' := visitor F in
  (PreservedAnalyses.all, F').

(** [static bool isRequired()] *)
Definition isRequired : bool := true.

#[global] Instance functionPass : FunctionPass t := {
  pass_run := fun _ => run;
  pass_isRequired := isRequired
}.

(** The callback handed to [registerPipelineParsingCallback]. *)
Definition pipelineParsingCallback : PipelineParsingCallback :=
  fun Name FPM _ =>
    if String.eqb Name "local-value-numbering" then
      let FPM' := addPass LocalValueNumbering FPM in
      (true, FPM')
    else (false, FPM).

Section Registration.
(** The two macros of the host's headers. *)
Variable LLVM_PLUGIN_API_VERSION : Z.
Variable LLVM_VERSION_STRING : string.

Definition getLocalValueNumberingPluginInfo : PassPluginLibraryInfo :=
  mkPassPluginLibraryInfo
    LLVM_PLUGIN_API_VERSION "LocalValueNumbering" LLVM_VERSION_STRING
    (fun PB => registerPipelineParsingCallback pipelineParsingCallback PB).

Definition llvmGetPassPluginInfo : PassPluginLibraryInfo :=
  getLocalValueNumberingPluginInfo.
End Registration.

End LocalValueNumbering.

Import IR PassManager.

(** ** Sample inputs and the vocabulary of the properties *)

Definition emptyAM : FunctionAnalysisManager := mkFunctionAnalysisManager [].

(** [t1 = a + b; t2 = b + a; t3 = t1 * t2] *)
Definition commutativeBlock : BasicBlock :=
  mkBasicBlock "entry"
    [ binop "t1" Add (Ref "a") (Ref "b");
      binop "t2" Add (Ref "b") (Ref "a");
      binop "t3" Mul (Ref "t1") (Ref "t2") ].

Definition commutativeFunction : Function :=
  mkFunction "f" false [commutativeBlock].

(** [t1 = load p; store x, p; t2 = load p; t3 = t1 - t2] *)
Definition loadStoreLoadBlock : BasicBlock :=
  mkBasicBlock "entry"
    [ load "t1" (Ref "p");
      store (Ref "x") (Ref "p");
      load "t2" (Ref "p");
      binop "t3" Sub (Ref "t1") (Ref "t2") ].

Definition loadStoreLoadFunction : Function :=
  mkFunction "g" false [loadStoreLoadBlock].

(** A function carrying the "do not optimize" marker. *)
Definition optnoneFunction : Function :=
  mkFunction "h" true [commutativeBlock; loadStoreLoadBlock].

(** The registers and memory a block is started in. *)
Definition sampleState : State :=
  mkState (<["a" := 2%Z]> (<["b" := 3%Z]> (<["p" := 16%Z]> (<["x" := 7%Z]> ∅))))
          (<[16%Z := 5%Z]> ∅).

Definition readReg (t : string) (o : option State) : option Z :=
  st ← o; regs st !! t.

(** [l] without the first occurrence of [i]. *)
Fixpoint removeFirst (i : Instruction) (l : list Instruction) : list Instruction :=
  match l with
  | [] => []
  | j :: l' => if decide (i = j) then l' else j :: removeFirst i l'
  end.

(** The instructions of [l] that have no counterpart in [l'], each
    instruction of [l'] standing for one occurrence only. *)
Fixpoint missingFrom (l l' : list Instruction) : list Instruction :=
  match l with
  | [] => []
  | i :: r =>
      if decide (i ∈ l') then missingFrom r (removeFirst i l')
      else i :: missingFrom r l'
  end.

(** The instructions of [B] that are gone from [B'], with their
    multiplicity. *)
Definition eliminated (B B' : BasicBlock) : list Instruction :=
  missingFrom (insts B) (insts B').

(** No block of [F] lost an instruction on the way to [F']. *)
Definition eliminatesNothing (F F' : Function) : Prop :=
  Forall2 (fun B B' => eliminated B B' = []) (blocks F) (blocks F').

(** Some block of [F] lost an instruction on the way to [F']. *)
Definition eliminatesSomething (F F' : Function) : Prop :=
  ∃ (k : nat) (B B' : BasicBlock),
    blocks F !! k = Some B ∧ blocks F' !! k = Some B' ∧ eliminated B B' ≠ [].

(** [B] contains [t1 = a + b; t2 = b + a;] followed by a use of [t1] and a use
    of [t2]. *)
Definition containsCommutedPair (t1 t2 : string) (a b : Value) (B : BasicBlock) : Prop :=
  ∃ pre post : list Instruction,
    insts B = (pre ++ binop t1 Add a b :: binop t2 Add b a :: post)%list
    ∧ usedIn t1 post = true ∧ usedIn t2 post = true.

(** [i] with every operand [old] replaced by [new]. *)
Definition redirectUses (old new : string) (i : Instruction) : Instruction :=
  mkInstruction (result i) (opcode i)
    (map (fun v => if decide (v = Ref old) then Ref new else v) (operands i)).

(** [B'] is [B] with [t2] folded into [t1]: nothing in [B'] defines [t2],
    nothing in [B'] reads [t2], and every instruction of [B] that read [t2] is
    in [B'] reading [t1] instead. *)
Definition foldedInto (t2 t1 : string) (B B' : BasicBlock) : Prop :=
  definedIn t2 (insts B') = false
  ∧ usedIn t2 (insts B') = false
  ∧ ∀ i, i ∈ insts B → usesResult t2 i = true → redirectUses t2 t1 i ∈ insts B'.

(** [B] contains [t1 = load p; store x, p; t2 = load p;]. *)
Definition containsLoadStoreLoad (t1 t2 : string) (x p : Value) (B : BasicBlock) : Prop :=
  ∃ pre post : list Instruction,
    insts B = (pre ++ load t1 p :: store x p :: load t2 p :: post)%list.

(** Two blocks compute the same mapping from the registers and memory they
    are started in to the registers and memory they end in (or both fail). *)
Definition blockEquiv (B B' : BasicBlock) : Prop :=
  ∀ st : State, execBlock st B' = execBlock st B.

(** The name the callback answers to. *)
Definition passName : string := "local-value-numbering".

(** The pipeline-parsing callback fed the names of a pipeline one after the
    other, each on the pass manager the previous call left. *)
Definition feedNames (names : list string) (FPM : FunctionPassManager)
    : FunctionPassManager :=
  foldl (fun FPM' Name =>
           (LocalValueNumbering.pipelineParsingCallback Name FPM' []).2)
        FPM names.

(** How many of [names] are the name of the pass. *)
Definition recognisedCount (names : list string) : nat :=
  length (filter (fun Name => Name = passName) names).

(** [n] runs of the pass in a row, each on the function the previous run
    left. *)
Fixpoint runTimes (n : nat) (F : Function) (AM : FunctionAnalysisManager)
    : Function :=
  match n with
  | O => F
  | S n' => runTimes n' (LocalValueNumbering.run F AM).2 AM
  end.

(** ** The interpreter on the sample blocks *)

Example execBlock_commutative :
  readReg "t3" (execBlock sampleState commutativeBlock) = Some 25%Z.
Proof. vm_compute. reflexivity. Qed.

Example execBlock_loadStoreLoad :
  readReg "t3" (execBlock sampleState loadStoreLoadBlock) = Some (wrap32 (5 - 7)).
Proof. vm_compute. reflexivity. Qed.

Example execBlock_undefined_operand :
  execBlock (mkState ∅ ∅) commutativeBlock = None.
Proof. vm_compute. reflexivity. Qed.

(** ** Basic facts about [visitor] and [run] *)

Lemma visitor_unchanged (F : Function) : LocalValueNumbering.visitor F = F.
Proof. reflexivity. Qed.

Lemma run_function (F : Function) (AM : FunctionAnalysisManager) :
  (LocalValueNumbering.run F AM).2 = F.
Proof. unfold LocalValueNumbering.run. simpl. apply visitor_unchanged. Qed.

Lemma run_report (F : Function) (AM : FunctionAnalysisManager) :
  (LocalValueNumbering.run F AM).1 = PreservedAnalyses.all.
Proof. reflexivity. Qed.

Lemma areAllPreserved_all : PreservedAnalyses.areAllPreserved PreservedAnalyses.all = true.
Proof.
  unfold PreservedAnalyses.areAllPreserved, PreservedAnalyses.all; simpl.
  apply bool_decide_eq_true_2. set_solver.
Qed.

Lemma areAllPreserved_none : PreservedAnalyses.areAllPreserved PreservedAnalyses.none = false.
Proof.
  unfold PreservedAnalyses.areAllPreserved, PreservedAnalyses.none; simpl.
  apply bool_decide_eq_false_2. set_solver.
Qed.

Lemma areAllPreserved_cfgOnly :
  PreservedAnalyses.areAllPreserved PreservedAnalyses.cfgOnly = false.
Proof.
  unfold PreservedAnalyses.areAllPreserved, PreservedAnalyses.cfgOnly; simpl.
  apply bool_decide_eq_false_2. set_solver.
Qed.

Lemma all_ne_none : PreservedAnalyses.all ≠ PreservedAnalyses.none.
Proof.
  intros Heq. pose proof areAllPreserved_all as Hall.
  rewrite Heq, areAllPreserved_none in Hall. discriminate Hall.
Qed.

Lemma all_ne_cfgOnly : PreservedAnalyses.all ≠ PreservedAnalyses.cfgOnly.
Proof.
  intros Heq. pose proof areAllPreserved_all as Hall.
  rewrite Heq, areAllPreserved_cfgOnly in Hall. discriminate Hall.
Qed.

(** ** What [run] reports *)

(** C1, as amended: for every function the pass is run on, [run] reports that
    every analysis is preserved (it returns [PreservedAnalyses::all()]). *)
Theorem run_preserves_all (F : Function) (AM : FunctionAnalysisManager) :
  (LocalValueNumbering.run F AM).1 = PreservedAnalyses.all
  ∧ PreservedAnalyses.areAllPreserved (LocalValueNumbering.run F AM).1 = true.
Proof.
  rewrite run_report. split; [reflexivity | apply areAllPreserved_all].
Qed.

(** C1, as stated, fails: on [commutativeFunction] the report of [run] is not
    "no analysis preserved". *)
Lemma run_preserves_none_counterexample :
  (LocalValueNumbering.run commutativeFunction emptyAM).1 ≠ PreservedAnalyses.none.
Proof. rewrite run_report. apply all_ne_none. Qed.

(** ** The function after the pass *)

(** C4: [run] leaves the function as it found it; block by block the
    instruction sequence is the one it was, so that no instruction is added,
    removed, replaced or given other operands. *)
Theorem run_leaves_function_unchanged (F : Function) (AM : FunctionAnalysisManager) :
  (LocalValueNumbering.run F AM).2 = F
  ∧ Forall2 (fun B B' => label B' = label B ∧ insts B' = insts B)
            (blocks F) (blocks (LocalValueNumbering.run F AM).2).
Proof.
  rewrite run_function. split; [reflexivity |].
  induction (blocks F) as [| B Bs IH]; constructor; auto.
Qed.

(** C7: running the pass on the function a first run returned gives that
    function again. *)
Theorem run_idempotent (F : Function) (AM AM' : FunctionAnalysisManager) :
  (LocalValueNumbering.run (LocalValueNumbering.run F AM).2 AM').2
  = (LocalValueNumbering.run F AM).2.
Proof. rewrite !run_function. reflexivity. Qed.

(** ** Eliminated instructions and the report *)

Lemma missingFrom_same (l : list Instruction) : missingFrom l l = [].
Proof.
  induction l as [| i l IH].
  - reflexivity.
  - simpl. rewrite decide_True by left. rewrite decide_True by reflexivity.
    exact IH.
Qed.

Lemma eliminated_same (B : BasicBlock) : eliminated B B = [].
Proof. unfold eliminated. apply missingFrom_same. Qed.

(** [eliminated] counts occurrences: one of two equal stores gone is seen. *)
Example eliminated_duplicate :
  eliminated (mkBasicBlock "b" [store (Ref "x") (Ref "p"); store (Ref "x") (Ref "p")])
             (mkBasicBlock "b" [store (Ref "x") (Ref "p")])
  = [store (Ref "x") (Ref "p")].
Proof. reflexivity. Qed.

Lemma visitor_eliminatesNothing (F : Function) :
  eliminatesNothing F (LocalValueNumbering.visitor F).
Proof.
  rewrite visitor_unchanged. unfold eliminatesNothing.
  induction (blocks F) as [| B Bs IH]; constructor; auto using eliminated_same.
Qed.

Lemma visitor_never_eliminatesSomething (F : Function) :
  ¬ eliminatesSomething F (LocalValueNumbering.visitor F).
Proof.
  rewrite visitor_unchanged. intros (k & B & B' & HB & HB' & Hne).
  rewrite HB in HB'. injection HB' as <-. apply Hne, eliminated_same.
Qed.

(** [run] has no path on which it reports that the CFG-level analyses only
    are preserved. *)
Lemma run_never_reports_cfgOnly (F : Function) (AM : FunctionAnalysisManager) :
  (LocalValueNumbering.run F AM).1 ≠ PreservedAnalyses.cfgOnly.
Proof. rewrite run_report. apply all_ne_cfgOnly. Qed.

(** ** Blocks with a commuted pair of additions *)

Lemma usedIn_app (t : string) (l m : list Instruction) :
  usedIn t (l ++ m)%list = usedIn t l || usedIn t m.
Proof. unfold usedIn. apply existsb_app. Qed.

Lemma definedIn_app (t : string) (l m : list Instruction) :
  definedIn t (l ++ m)%list = definedIn t l || definedIn t m.
Proof. unfold definedIn. apply existsb_app. Qed.

Lemma definedIn_cons_result (i : Instruction) (l : list Instruction) :
  definedIn (result i) (i :: l) = true.
Proof. unfold definedIn. simpl. rewrite bool_decide_eq_true_2; reflexivity. Qed.

Lemma usedIn_cons_later (t : string) (i : Instruction) (l : list Instruction) :
  usedIn t l = true → usedIn t (i :: l) = true.
Proof. unfold usedIn. simpl. intros ->. apply orb_true_r. Qed.

(** The block at position [k] after the run is the block that was there. *)
Lemma run_block (F : Function) (AM : FunctionAnalysisManager) (k : nat) :
  blocks (LocalValueNumbering.run F AM).2 !! k = blocks F !! k.
Proof. rewrite run_function. reflexivity. Qed.

(** C2, as amended: in a block containing [t1 = a + b; t2 = b + a;] followed
    by uses of both, the run leaves the instruction defining [t2] in the block
    and the uses of [t2] still read [t2]; the instruction sequence of the
    block is the one it was. *)
Theorem run_keeps_commuted_pair (F : Function) (AM : FunctionAnalysisManager)
    (k : nat) (B : BasicBlock) (t1 t2 : string) (a b : Value) :
  blocks F !! k = Some B →
  containsCommutedPair t1 t2 a b B →
  ∃ B', blocks (LocalValueNumbering.run F AM).2 !! k = Some B'
        ∧ insts B' = insts B
        ∧ binop t2 Add b a ∈ insts B'
        ∧ definedIn t2 (insts B') = true
        ∧ usedIn t2 (insts B') = true.
Proof.
  intros HB (pre & post & Hinsts & _ & Hused2).
  exists B. rewrite run_block. split; [exact HB | split; [reflexivity |]].
  rewrite Hinsts. split; [| split].
  - apply elem_of_app. right. right. left.
  - rewrite definedIn_app. apply orb_true_iff. right.
    change (binop t1 Add a b :: binop t2 Add b a :: post)
      with ([binop t1 Add a b] ++ binop t2 Add b a :: post)%list.
    rewrite definedIn_app. apply orb_true_iff. right.
    apply (definedIn_cons_result (binop t2 Add b a)).
  - rewrite usedIn_app. apply orb_true_iff. right.
    do 2 apply usedIn_cons_later. exact Hused2.
Qed.

(** The amended C2 on [commutativeFunction]. *)
Lemma run_keeps_commuted_pair_witness :
  ∃ B', blocks (LocalValueNumbering.run commutativeFunction emptyAM).2 !! 0%nat = Some B'
        ∧ insts B' = insts commutativeBlock
        ∧ binop "t2" Add (Ref "b") (Ref "a") ∈ insts B'
        ∧ definedIn "t2" (insts B') = true
        ∧ usedIn "t2" (insts B') = true.
Proof.
  apply (run_keeps_commuted_pair commutativeFunction emptyAM 0 commutativeBlock
           "t1" "t2" (Ref "a") (Ref "b")).
  - reflexivity.
  - exists [], [binop "t3" Mul (Ref "t1") (Ref "t2")].
    split; [reflexivity | split; reflexivity].
Defined.

(** C2, as stated, fails: [commutativeFunction] has the block
    [t1 = a + b; t2 = b + a; t3 = t1 * t2] at position 0, and the block at
    position 0 after the run is not that block with [t2] folded into [t1]. *)
Lemma run_folds_commuted_pair_counterexample :
  blocks commutativeFunction !! 0%nat = Some commutativeBlock
  ∧ containsCommutedPair "t1" "t2" (Ref "a") (Ref "b") commutativeBlock
  ∧ ∃ B', blocks (LocalValueNumbering.run commutativeFunction emptyAM).2 !! 0%nat = Some B'
          ∧ ¬ foldedInto "t2" "t1" commutativeBlock B'.
Proof.
  split; [reflexivity | split].
  - exists [], [binop "t3" Mul (Ref "t1") (Ref "t2")].
    split; [reflexivity | split; reflexivity].
  - exists commutativeBlock. split; [reflexivity |].
    intros (Hdef & _). vm_compute in Hdef. discriminate Hdef.
Qed.

(** ** Blocks with a store between two loads *)

(** C6: in a block containing [t1 = load p; store x, p; t2 = load p;] the
    second load is not eliminated and the earlier loaded value is not reused
    for it: after the run the instruction sequence of the block is the one it
    was, so the three instructions are still there in a row, [t2] is still
    defined by its load, no instruction is among the eliminated ones, every
    result is read where it was read before (no use of [t2] has become a use
    of [t1]), and the block computes what it computed. *)
Theorem run_keeps_load_after_store (F : Function) (AM : FunctionAnalysisManager)
    (k : nat) (B : BasicBlock) (t1 t2 : string) (x p : Value) :
  blocks F !! k = Some B →
  containsLoadStoreLoad t1 t2 x p B →
  ∃ B', blocks (LocalValueNumbering.run F AM).2 !! k = Some B'
        ∧ insts B' = insts B
        ∧ containsLoadStoreLoad t1 t2 x p B'
        ∧ load t2 p ∈ insts B'
        ∧ (load t2 p ∉ eliminated B B')
        ∧ eliminated B B' = []
        ∧ (∀ t, usedIn t (insts B') = usedIn t (insts B))
        ∧ blockEquiv B B'.
Proof.
  intros HB (pre & post & Hinsts).
  assert (Hin : load t2 p ∈ insts B).
  { rewrite Hinsts. apply elem_of_app. right. do 2 right. left. }
  exists B. rewrite run_block. split; [exact HB |].
  split; [reflexivity |].
  split; [exists pre, post; exact Hinsts |].
  split; [exact Hin |].
  rewrite eliminated_same.
  split; [apply not_elem_of_nil |].
  split; [reflexivity |].
  split; [intros t; reflexivity | intros st; reflexivity].
Qed.

(** C6 on [loadStoreLoadFunction]. *)
Lemma run_keeps_load_after_store_witness :
  ∃ B', blocks (LocalValueNumbering.run loadStoreLoadFunction emptyAM).2 !! 0%nat = Some B'
        ∧ insts B' = insts loadStoreLoadBlock
        ∧ containsLoadStoreLoad "t1" "t2" (Ref "x") (Ref "p") B'
        ∧ load "t2" (Ref "p") ∈ insts B'
        ∧ (load "t2" (Ref "p") ∉ eliminated loadStoreLoadBlock B')
        ∧ eliminated loadStoreLoadBlock B' = []
        ∧ (∀ t, usedIn t (insts B') = usedIn t (insts loadStoreLoadBlock))
        ∧ blockEquiv loadStoreLoadBlock B'.
Proof.
  apply (run_keeps_load_after_store loadStoreLoadFunction emptyAM 0 loadStoreLoadBlock).
  - reflexivity.
  - exists [], [binop "t3" Sub (Ref "t1") (Ref "t2")]. reflexivity.
Defined.

(** ** Semantic equivalence *)

Lemma blockEquiv_refl (B : BasicBlock) : blockEquiv B B.
Proof. intros st. reflexivity. Qed.

(** C5: every block of the function after the run computes the same mapping
    from inputs to outputs as the block it comes from; no instruction is
    excepted. *)
Theorem run_preserves_block_semantics (F : Function) (AM : FunctionAnalysisManager) :
  Forall2 blockEquiv (blocks F) (blocks (LocalValueNumbering.run F AM).2).
Proof.
  rewrite run_function.
  induction (blocks F) as [| B Bs IH]; constructor.
  - apply blockEquiv_refl.
  - exact IH.
Qed.

(** ** Required passes *)

(** A pass that is not required is skipped on a function marked "do not
    optimize". *)
Example optional_pass_skipped_on_optnone (AM : FunctionAnalysisManager) :
  invoke (mkPassConcept LocalValueNumbering.run false) optnoneFunction AM = None.
Proof. reflexivity. Qed.

(** C8: [isRequired()] returns true, and so the host runs the pass on a
    function marked "do not optimize" instead of skipping it. *)
Theorem pass_runs_on_optnone (F : Function) (AM : FunctionAnalysisManager) :
  hasOptNone F = true →
  LocalValueNumbering.isRequired = true
  ∧ shouldRun (PassModel LocalValueNumbering.LocalValueNumbering) F = true
  ∧ invoke (PassModel LocalValueNumbering.LocalValueNumbering) F AM
    = Some (LocalValueNumbering.run F AM).
Proof. intros _. repeat split. Qed.

(** C8 on [optnoneFunction]. *)
Lemma pass_runs_on_optnone_witness :
  LocalValueNumbering.isRequired = true
  ∧ shouldRun (PassModel LocalValueNumbering.LocalValueNumbering) optnoneFunction = true
  ∧ invoke (PassModel LocalValueNumbering.LocalValueNumbering) optnoneFunction emptyAM
    = Some (LocalValueNumbering.run optnoneFunction emptyAM).
Proof. apply (pass_runs_on_optnone optnoneFunction emptyAM). reflexivity. Defined.

(** ** Registration *)

Lemma callback_recognised (FPM : FunctionPassManager) (Elements : list PipelineElement) :
  LocalValueNumbering.pipelineParsingCallback "local-value-numbering" FPM Elements
  = (true, addPass LocalValueNumbering.LocalValueNumbering FPM).
Proof. reflexivity. Qed.

Lemma callback_other (Name : string) (FPM : FunctionPassManager)
    (Elements : list PipelineElement) :
  Name ≠ "local-value-numbering" →
  LocalValueNumbering.pipelineParsingCallback Name FPM Elements = (false, FPM).
Proof.
  intros Hne. unfold LocalValueNumbering.pipelineParsingCallback.
  destruct (String.eqb_spec Name "local-value-numbering") as [Heq | _].
  - contradiction.
  - reflexivity.
Qed.

(** C9: the pipeline-parsing callback returns true exactly when the name is
    ["local-value-numbering"]; in that case it appends the pass to the
    function pass manager, and for any other name it returns false and leaves
    the pass manager as it was. *)
Theorem callback_iff_name (Name : string) (FPM : FunctionPassManager)
    (Elements : list PipelineElement) :
  ((LocalValueNumbering.pipelineParsingCallback Name FPM Elements).1 = true
     ↔ Name = "local-value-numbering")
  ∧ (Name = "local-value-numbering" →
       Passes (LocalValueNumbering.pipelineParsingCallback Name FPM Elements).2
       = (Passes FPM ++ [PassModel LocalValueNumbering.LocalValueNumbering])%list)
  ∧ (Name ≠ "local-value-numbering" →
       LocalValueNumbering.pipelineParsingCallback Name FPM Elements = (false, FPM)).
Proof.
  destruct (decide (Name = "local-value-numbering")) as [-> | Hne].
  - rewrite callback_recognised. simpl. repeat split; intros; congruence.
  - rewrite (callback_other _ _ _ Hne). simpl.
    repeat split; intros; congruence.
Qed.

(** C9 on the registered name and on a name one character short of it. *)
Lemma callback_iff_name_witness :
  Passes (LocalValueNumbering.pipelineParsingCallback "local-value-numbering"
            (mkFunctionPassManager []) []).2
  = [PassModel LocalValueNumbering.LocalValueNumbering]
  ∧ LocalValueNumbering.pipelineParsingCallback "local-value-numberin"
      (mkFunctionPassManager []) []
    = (false, mkFunctionPassManager []).
Proof.
  split.
  - apply (proj1 (proj2 (callback_iff_name "local-value-numbering"
                           (mkFunctionPassManager []) []))).
    reflexivity.
  - apply (proj2 (proj2 (callback_iff_name "local-value-numberin"
                           (mkFunctionPassManager []) []))).
    discriminate.
Defined.

(** C10: the exported entry point returns what
    [getLocalValueNumberingPluginInfo] returns: a record whose API version is
    [LLVM_PLUGIN_API_VERSION] and whose plugin name is
    ["LocalValueNumbering"]. *)
Theorem llvmGetPassPluginInfo_value (LLVM_PLUGIN_API_VERSION : Z)
    (LLVM_VERSION_STRING : string) :
  let info := LocalValueNumbering.llvmGetPassPluginInfo
                LLVM_PLUGIN_API_VERSION LLVM_VERSION_STRING in
  info = LocalValueNumbering.getLocalValueNumberingPluginInfo
           LLVM_PLUGIN_API_VERSION LLVM_VERSION_STRING
  ∧ APIVersion info = LLVM_PLUGIN_API_VERSION
  ∧ PluginName info = "LocalValueNumbering".
Proof. repeat split. Qed.

(** ** Further properties of the registration *)

Lemma string_length_append (s1 s2 : string) :
  String.length (String.append s1 s2) = String.length s1 + String.length s2.
Proof.
  induction s1 as [| a s1 IH].
  - reflexivity.
  - change (S (String.length (String.append s1 s2))
            = S (String.length s1 + String.length s2)).
    rewrite IH. reflexivity.
Qed.

Lemma string_length_nonempty (s : string) : s ≠ EmptyString → 0 < String.length s.
Proof. destruct s; [congruence | simpl; lia]. Qed.

Lemma callback_cases (Name : string) (FPM : FunctionPassManager)
    (Elements : list PipelineElement) :
  (Name = passName
   ∧ LocalValueNumbering.pipelineParsingCallback Name FPM Elements
     = (true, addPass LocalValueNumbering.LocalValueNumbering FPM))
  ∨ (Name ≠ passName
     ∧ LocalValueNumbering.pipelineParsingCallback Name FPM Elements = (false, FPM)).
Proof.
  destruct (decide (Name = passName)) as [-> | Hne].
  - left. split; [reflexivity | apply callback_recognised].
  - right. split; [exact Hne | apply callback_other; exact Hne].
Qed.

(** X1: the registration hook of the plugin record appends one callback to
    the pass builder's list and keeps the callbacks that were registered
    before, in their order; the appended callback answers true to
    ["local-value-numbering"].  The record's version is
    [LLVM_VERSION_STRING]. *)
Theorem registration_appends_one_callback (LLVM_PLUGIN_API_VERSION : Z)
    (LLVM_VERSION_STRING : string) (PB : PassBuilder) :
  let info := LocalValueNumbering.llvmGetPassPluginInfo
                LLVM_PLUGIN_API_VERSION LLVM_VERSION_STRING in
  let PB' := RegisterPassBuilderCallbacks info PB in
  PluginVersion info = LLVM_VERSION_STRING
  ∧ FunctionPipelineParsingCallbacks PB `prefix_of` FunctionPipelineParsingCallbacks PB'
  ∧ length (FunctionPipelineParsingCallbacks PB')
    = S (length (FunctionPipelineParsingCallbacks PB))
  ∧ ∃ C, last (FunctionPipelineParsingCallbacks PB') = Some C
         ∧ ∀ FPM Elements, (C passName FPM Elements).1 = true.
Proof.
  simpl. split; [reflexivity | split; [| split]].
  - apply prefix_app_r. reflexivity.
  - rewrite length_app. simpl. lia.
  - exists LocalValueNumbering.pipelineParsingCallback.
    split; [apply last_snoc | reflexivity].
Qed.

(** X2: whatever the name, the callback keeps the passes that are in the
    pass manager, in their order; the pipeline grows by one pass when the
    callback returns true and not at all when it returns false. *)
Theorem callback_keeps_pipeline (Name : string) (FPM : FunctionPassManager)
    (Elements : list PipelineElement) :
  let r := LocalValueNumbering.pipelineParsingCallback Name FPM Elements in
  Passes FPM `prefix_of` Passes r.2
  ∧ length (Passes r.2) = length (Passes FPM) + (if r.1 then 1 else 0).
Proof.
  simpl. destruct (callback_cases Name FPM Elements) as [[_ ->] | [_ ->]]; simpl.
  - split; [apply prefix_app_r; reflexivity | rewrite length_app; reflexivity].
  - split; [reflexivity | lia].
Qed.

(** X3: the callback never looks at the inner pipeline it is handed, and its
    verdict depends on the name alone, not on the pass manager. *)
Theorem callback_depends_on_name_only (Name : string)
    (FPM FPM' : FunctionPassManager) (Elements Elements' : list PipelineElement) :
  LocalValueNumbering.pipelineParsingCallback Name FPM Elements
  = LocalValueNumbering.pipelineParsingCallback Name FPM Elements'
  ∧ (LocalValueNumbering.pipelineParsingCallback Name FPM Elements).1
    = (LocalValueNumbering.pipelineParsingCallback Name FPM' Elements').1.
Proof.
  split; [reflexivity |].
  destruct (callback_cases Name FPM Elements) as [[HN ->] | [HN ->]];
    destruct (callback_cases Name FPM' Elements') as [[HN' ->] | [HN' ->]];
    simpl; congruence.
Qed.

(** X4: the name is matched whole: a name that has ["local-value-numbering"]
    inside it with something before or after is not recognised, and the pass
    manager is left as it was. *)
Theorem callback_rejects_longer_names (pre suf : string) (FPM : FunctionPassManager)
    (Elements : list PipelineElement) :
  pre ≠ EmptyString ∨ suf ≠ EmptyString →
  LocalValueNumbering.pipelineParsingCallback
    (String.append pre (String.append passName suf)) FPM Elements
  = (false, FPM).
Proof.
  intros Hlonger. apply callback_other. intros Heq.
  apply (f_equal String.length) in Heq.
  rewrite !string_length_append in Heq. unfold passName in Heq.
  change (String.length "local-value-numbering") with 21 in Heq.
  destruct Hlonger as [Hpre | Hsuf].
  - apply string_length_nonempty in Hpre. lia.
  - apply string_length_nonempty in Hsuf. lia.
Qed.

(** X4 on a name with parameters after it and on a name with a prefix. *)
Lemma callback_rejects_longer_names_witness :
  LocalValueNumbering.pipelineParsingCallback
    "local-value-numbering<x>" (mkFunctionPassManager []) []
  = (false, mkFunctionPassManager [])
  ∧ LocalValueNumbering.pipelineParsingCallback
      "my-local-value-numbering" (mkFunctionPassManager []) []
    = (false, mkFunctionPassManager []).
Proof.
  split.
  - apply (callback_rejects_longer_names EmptyString "<x>" (mkFunctionPassManager []) []).
    right. discriminate.
  - apply (callback_rejects_longer_names "my-" EmptyString (mkFunctionPassManager []) []).
    left. discriminate.
Defined.

Lemma feedNames_snoc (names : list string) (Name : string) (FPM : FunctionPassManager) :
  feedNames (names ++ [Name]) FPM
  = (LocalValueNumbering.pipelineParsingCallback Name (feedNames names FPM) []).2.
Proof. unfold feedNames. rewrite foldl_app. reflexivity. Qed.

(** X5: the callback adds the pass every time it is given the name, also
    when the pass is in the pipeline already: after a sequence of names the
    pipeline is the one before followed by as many copies of the pass as the
    name occurs in the sequence. *)
Theorem feedNames_adds_one_pass_per_occurrence (names : list string)
    (FPM : FunctionPassManager) :
  Passes (feedNames names FPM)
  = (Passes FPM
     ++ replicate (recognisedCount names)
          (PassModel LocalValueNumbering.LocalValueNumbering))%list.
Proof.
  revert FPM. induction names as [| Name names IH]; intros FPM.
  - simpl. rewrite app_nil_r. reflexivity.
  - change (feedNames (Name :: names) FPM)
      with (feedNames names
              (LocalValueNumbering.pipelineParsingCallback Name FPM []).2).
    rewrite IH. unfold recognisedCount. rewrite filter_cons.
    destruct (callback_cases Name FPM []) as [[HN ->] | [HN ->]]; simpl.
    + rewrite decide_True by exact HN. simpl. rewrite <- app_assoc. reflexivity.
    + rewrite decide_False by exact HN. reflexivity.
Qed.

(** X6: when the callback returns true, the pass it put last in the pipeline
    is one the host runs on every function, marked "do not optimize" or not,
    and running it returns the function as it was together with the report
    that every analysis is preserved. *)
Theorem recognised_pass_runs_and_keeps_function (Name : string)
    (FPM FPM' : FunctionPassManager) (Elements : list PipelineElement)
    (F : Function) (AM : FunctionAnalysisManager) :
  LocalValueNumbering.pipelineParsingCallback Name FPM Elements = (true, FPM') →
  ∃ P, last (Passes FPM') = Some P
       ∧ invoke P F AM = Some (PreservedAnalyses.all, F).
Proof.
  intros Hcall.
  destruct (callback_cases Name FPM Elements) as [[_ Hyes] | [_ Hno]].
  - rewrite Hyes in Hcall. injection Hcall as <-.
    exists (PassModel LocalValueNumbering.LocalValueNumbering).
    split; [apply last_snoc | reflexivity].
  - rewrite Hno in Hcall. discriminate Hcall.
Qed.

(** X6 on an empty pipeline and [optnoneFunction]. *)
Lemma recognised_pass_runs_and_keeps_function_witness :
  ∃ P, last (Passes (addPass LocalValueNumbering.LocalValueNumbering
                       (mkFunctionPassManager []))) = Some P
       ∧ invoke P optnoneFunction emptyAM = Some (PreservedAnalyses.all, optnoneFunction).
Proof.
  apply (recognised_pass_runs_and_keeps_function "local-value-numbering"
           (mkFunctionPassManager []) _ [] optnoneFunction emptyAM).
  reflexivity.
Defined.

(** X7: any number of runs in a row leaves the function as it was, and the
    run after them still reports that every analysis is preserved. *)
Theorem runTimes_unchanged (n : nat) (F : Function) (AM : FunctionAnalysisManager) :
  runTimes n F AM = F
  ∧ LocalValueNumbering.run (runTimes n F AM) AM = (PreservedAnalyses.all, F).
Proof.
  assert (Hfix : runTimes n F AM = F).
  { revert F. induction n as [| n IH]; intros F.
    - reflexivity.
    - change (runTimes n (LocalValueNumbering.run F AM).2 AM = F).
      rewrite run_function. apply IH. }
  rewrite Hfix. split; reflexivity.
Qed.
